(** * Image metadata routes: a shallow embedding of
      [src/routes/image-metadata.routes.ts] and its request-level properties.

    The three Express handlers of the router are embedded as functions in a
    small promise monad ([Async]): a computation threads the state of the
    outside world and a log of the calls made to the collaborators, and either
    fulfils with a value or rejects with an error.  Collaborators whose code
    lives in other modules of the repository ([ImageService], [isValidImage],
    [isLocalFile], the two validator middlewares) are parameters; the
    document model [ImageMetadata] and the constants are modelled from the
    specification. *)

From Stdlib Require Import ZArith String Ascii List.
From stdpp Require Import base option strings gmap list fin_maps.

Set Warnings "-register-all".

Local Open Scope Z_scope.
Local Open Scope string_scope.

(** ** JavaScript values *)

Module Js.

(** The JSON-shaped values a request body carries.  Numbers are never
    inspected by the routes, integers stand for them. *)
Inductive JsValue : Type :=
| JsUndefined
| JsNull
| JsBool (b : bool)
| JsNumber (n : Z)
| JsString (s : string)
| JsArray (elems : list JsValue)
| JsObject (fields : list (string * JsValue)).

(** [o.k]: reading a property of a plain object; a missing property reads
    as [undefined]. *)
Definition get (o : gmap string JsValue) (k : string) : JsValue :=
  default JsUndefined (o !! k).

(** [{ ...o, k }] where [k] is a variable in scope holding [v]. *)
Definition spread_with (o : gmap string JsValue) (k : string) (v : JsValue)
  : gmap string JsValue :=
  <[k := v]> o.

(** [{ ...o }]: a shallow copy of the own properties. *)
Definition spread (o : gmap string JsValue) : gmap string JsValue := o.

(** An [Error] object, as the [catch] clause reads it through the cast
    [(error as Error).message]. *)
Record Error : Type := mkError { message : string }.

(** Truthiness of a string: only the empty string is falsy. *)
Definition truthy_string (s : string) : bool :=
  match s with
  | EmptyString => false
  | String _ _ => true
  end.

(** [s.split(sep)] for a one-character separator: the pieces between the
    separators, in order; always at least one piece. *)
Fixpoint split (sep : ascii) (s : string) : list string :=
  match s with
  | EmptyString => [EmptyString]
  | String c rest =>
      if Ascii.eqb c sep then EmptyString :: split sep rest
      else match split sep rest with
           | piece :: pieces => String c piece :: pieces
           | [] => [String c EmptyString]
           end
  end.

(** A parsed query-string value: [string | string[] | ParsedQs | ...]. *)
Inductive QueryValue : Type :=
| QString (s : string)
| QArray (elems : list QueryValue)
| QObject (fields : list (string * QueryValue)).

(** Arrays and objects are truthy, a string is truthy when non-empty. *)
Definition truthy_query (q : option QueryValue) : bool :=
  match q with
  | None => false
  | Some (QString s) => truthy_string s
  | Some (QArray _) => true
  | Some (QObject _) => true
  end.

(** [typeof q === 'string'], giving the string when it is one. *)
Definition as_string (q : option QueryValue) : option string :=
  match q with
  | Some (QString s) => Some s
  | _ => None
  end.

End Js.

Export Js.

(** ** Constants *)

(** Modelled from the spec: the status codes of
    [constants/http-status.constants], a module that is not among the sources
    at hand; the numbers are those section 6 gives for each outcome. *)
Module HTTP_STATUS.

(** Modelled from the spec: the status of every successful answer. *)
Definition OKAY : Z := 200.

(** Modelled from the spec: the status of an unsupported type, of a local
    file that is not found and of a record that is not found. *)
Definition BAD_REQUEST : Z := 400.

(** Modelled from the spec: the status of a missing identity token. *)
Definition UNAUTHORIZED : Z := 401.

(** Modelled from the spec: the status of any other failure. *)
Definition INTERNAL_SERVER_ERROR : Z := 500.

End HTTP_STATUS.

(** Modelled from the spec: [IMAGE_FILE_NOT_FOUND] of
    [constants/messages.constants], not among the sources at hand; the text
    is the one section 6 gives. *)
Definition IMAGE_FILE_NOT_FOUND : string := "image file not found".

(** Modelled from the spec: [IMAGE_FILE_TYPE_UNSUPPORTED] of
    [constants/messages.constants]; the text is the one section 6 gives. *)
Definition IMAGE_FILE_TYPE_UNSUPPORTED : string := "unsupported image file type".

(** Modelled from the spec: [IMAGE_NOT_FOUND] of
    [constants/messages.constants]; the text is the one section 6 gives. *)
Definition IMAGE_NOT_FOUND : string := "image not found".

(** Modelled from the spec: [IMAGE_PROCESSING_FAILED] of
    [constants/messages.constants]; the text is the one section 6 gives.
    The text of [MISSING_AUTH] is given nowhere: it is a parameter of the
    create route. *)
Definition IMAGE_PROCESSING_FAILED : string := "image processing failed".

(** ** The document model *)

(** The schema [schemas/image-metadata] and the document store behind it
    are not among the sources at hand; the module below stands for them. *)
Module ImageMetadata.

(** Modelled from the spec: the fields of an image record (section 3); the
    schema that declares them is missing.  The identifier is the key under
    which the collection holds the record. *)
Record Fields : Type := mkFields {
  imgUrl : string;
  objects : list string;
  isUploadedFile : bool;
  others : gmap string JsValue
}.

(** A stored document: its identifier and its fields. *)
Definition Doc : Type := string * Fields.

(** Modelled from the spec: the collection, one record per store-assigned
    identifier. *)
Definition Collection : Type := gmap string Fields.

(** The two query shapes the router builds: [{}] and
    [{ objects: { $in: labels } }]. *)
Inductive Filter : Type :=
| All
| ObjectsIn (labels : list string).

(** Modelled from the spec: the [$in] condition on [objects], missing with
    the store; a record matches when its [objects] set intersects the
    requested labels (section 4.5). *)
Definition intersects (labels : list string) (f : Fields) : bool :=
  existsb (fun o => bool_decide (o ∈ labels)) (objects f).

Definition matches (q : Filter) (d : Doc) : bool :=
  match q with
  | All => true
  | ObjectsIn labels => intersects labels (snd d)
  end.

(** Modelled from the spec: [ImageMetadata.find], missing with the store;
    all the records that match, in the order of the store (section 4.5). *)
Definition find (q : Filter) (db : Collection) : list Doc :=
  List.filter (matches q) (map_to_list db).

(** Modelled from the spec: [ImageMetadata.findById], missing with the
    store; the record under the identifier, or nothing (section 4.5). *)
Definition findById (id : string) (db : Collection) : option Doc :=
  match db !! id with
  | Some f => Some (id, f)
  | None => None
  end.

End ImageMetadata.

(** ** Requests and responses *)

(** The parts of an Express request the routes read. *)
Record Request : Type := mkRequest {
  headers : gmap string string;
  query : gmap string QueryValue;
  params : gmap string string;
  body : gmap string JsValue
}.

(** What [res.send] is given. *)
Inductive Body : Type :=
| Text (s : string)
| Json (o : gmap string JsValue)
| Documents (ds : list ImageMetadata.Doc)
| Document (d : ImageMetadata.Doc).

Record Response : Type := mkResponse {
  status : Z;
  sent : Body
}.

(** [res.status(code).send(b)] *)
Definition send (code : Z) (b : Body) : Response :=
  {| status := code; sent := b |}.

(** A route parameter; [ParamsDictionary] types every parameter as a string
    and the route pattern binds the ones a handler reads. *)
Definition param (req : Request) (k : string) : string :=
  default "" (params req !! k).

(** ** Promises: state, call log and rejection *)

(** The calls a handler makes to its collaborators, with their arguments. *)
Inductive Call : Type :=
| CallIsValidImage (imgUrl : JsValue)
| CallIsLocalFile (imgUrl : JsValue)
| CallHandleLocalFile (imgUrl : JsValue) (authorization : string)
| CallCreateImage (body : gmap string JsValue) (isUploadedFile : bool)
    (authorization : string)
| CallFind (q : ImageMetadata.Filter)
| CallFindById (id : string).

Inductive Outcome (A : Type) : Type :=
| Fulfilled (a : A)
| Rejected (e : Error).

Arguments Fulfilled {A} a.
Arguments Rejected {A} e.

Record Env (Σ : Type) : Type := mkEnv {
  world : Σ;
  calls : list Call
}.

Arguments mkEnv {Σ} world calls.
Arguments world {Σ} e.
Arguments calls {Σ} e.

Definition Async (Σ A : Type) : Type := Env Σ -> Outcome A * Env Σ.

#[global] Instance Async_ret {Σ} : MRet (Async Σ) :=
  fun A (a : A) env => (Fulfilled a, env).

#[global] Instance Async_bind {Σ} : MBind (Async Σ) :=
  fun A B (k : A -> Async Σ B) (m : Async Σ A) env =>
    match m env with
    | (Fulfilled a, env') => k a env'
    | (Rejected e, env') => (Rejected e, env')
    end.

(** [try { m } catch (error) { h error }] *)
Definition try_catch {Σ A} (m : Async Σ A) (h : Error -> Async Σ A)
  : Async Σ A :=
  fun env =>
    match m env with
    | (Fulfilled a, env') => (Fulfilled a, env')
    | (Rejected e, env') => h e env'
    end.

(** Record a call, then let the collaborator act on the world. *)
Definition invoke {Σ A} (c : Call) (f : Σ -> Outcome A * Σ) : Async Σ A :=
  fun env =>
    let (r, w) := f (world env) in
    (r, {| world := w; calls := calls env ++ [c] |}).

(** Run a handler from a world in which nothing has been called yet. *)
Definition run {Σ A} (m : Async Σ A) (w : Σ) : Outcome A * Env Σ :=
  m {| world := w; calls := [] |}.

(** How many of the logged calls satisfy [p]. *)
Definition invocations (p : Call -> bool) (cs : list Call) : nat :=
  length (List.filter p cs).

Definition is_handleLocalFile (c : Call) : bool :=
  match c with CallHandleLocalFile _ _ => true | _ => false end.

Definition is_createImage (c : Call) : bool :=
  match c with CallCreateImage _ _ _ => true | _ => false end.

(** The calls that leave the process: the resolver and the delegate. *)
Definition is_external (c : Call) : bool :=
  is_handleLocalFile c || is_createImage c.

(** ** Collaborators *)

(** [services/image.service]: the detection and storage service, acting on a
    world of type [Σ].  Its code is not part of the sources at hand; the
    routes are verified against every implementation of the interface. *)
Class ImageService (Σ : Type) : Type := {
  handleLocalFile : JsValue -> string -> Σ -> Outcome string * Σ;
  createImage :
    gmap string JsValue -> bool -> string -> Σ ->
    Outcome (gmap string JsValue) * Σ
}.

(** [lib/valid-image] and [lib/check-filepath]: two pure predicates. *)
Class ImageLib : Type := {
  isValidImage : JsValue -> bool;
  isLocalFile : JsValue -> bool
}.

(** A middleware either answers the request itself or calls [next()]. *)
Definition Middleware : Type := Request -> option Response.

Definition guarded {Σ} (mw : Middleware) (h : Request -> Async Σ Response)
  : Request -> Async Σ Response :=
  fun req =>
    match mw req with
    | Some res => mret res
    | None => h req
    end.

(** ** The router *)

Section Reads.

(** The two validator middlewares of the read routes are not part of the
    sources at hand. *)
Variable validateImageGetParams : Middleware.
Variable validateObjectId : Middleware.

Definition ImageMetadata_find (q : ImageMetadata.Filter)
  : Async ImageMetadata.Collection (list ImageMetadata.Doc) :=
  invoke (CallFind q) (fun db => (Fulfilled (ImageMetadata.find q db), db)).

Definition ImageMetadata_findById (id : string)
  : Async ImageMetadata.Collection (option ImageMetadata.Doc) :=
  invoke (CallFindById id)
    (fun db => (Fulfilled (ImageMetadata.findById id db), db)).

(** [router.get('/images', validateImageGetParams, handler)]: the handler. *)
Definition get_images_handler (req : Request)
  : Async ImageMetadata.Collection Response :=
  let objects := query req !! "objects" in
  images ←
    match (if truthy_query objects then as_string objects else None) with
    | Some objects =>
        let objectsArr := split "," objects in
        ImageMetadata_find (ImageMetadata.ObjectsIn objectsArr)
    | None => ImageMetadata_find ImageMetadata.All
    end;
  mret (send HTTP_STATUS.OKAY (Documents images)).

Definition get_images : Request -> Async ImageMetadata.Collection Response :=
  guarded validateImageGetParams get_images_handler.

(** [router.get('/images/:id', validateObjectId, handler)]: the handler. *)
Definition get_image_by_id_handler (req : Request)
  : Async ImageMetadata.Collection Response :=
  let id := param req "id" in
  image ← ImageMetadata_findById id;
  match image with
  | None =>
      mret (send HTTP_STATUS.BAD_REQUEST
              (Json {[ "message" := JsString IMAGE_NOT_FOUND ]}))
  | Some image => mret (send HTTP_STATUS.OKAY (Document image))
  end.

Definition get_image_by_id
  : Request -> Async ImageMetadata.Collection Response :=
  guarded validateObjectId get_image_by_id_handler.

End Reads.

Section Create.

Context {Σ : Type} {service : ImageService Σ} {lib : ImageLib}.

(** The text of the missing-authorization message. *)
Variable MISSING_AUTH : string.

Definition call_isValidImage (imgUrl : JsValue) : Async Σ bool :=
  invoke (CallIsValidImage imgUrl) (fun w => (Fulfilled (isValidImage imgUrl), w)).

Definition call_isLocalFile (imgUrl : JsValue) : Async Σ bool :=
  invoke (CallIsLocalFile imgUrl) (fun w => (Fulfilled (isLocalFile imgUrl), w)).

Definition ImageService_handleLocalFile (imgUrl : JsValue)
  (authorization : string) : Async Σ string :=
  invoke (CallHandleLocalFile imgUrl authorization)
    (handleLocalFile imgUrl authorization).

Definition ImageService_createImage (updatedBody : gmap string JsValue)
  (isUploadedFile : bool) (authorization : string)
  : Async Σ (gmap string JsValue) :=
  invoke (CallCreateImage updatedBody isUploadedFile authorization)
    (createImage updatedBody isUploadedFile authorization).

Definition unauthorized : Response :=
  send HTTP_STATUS.UNAUTHORIZED (Text MISSING_AUTH).

(** The [catch] clause of the create handler.  What is caught is an [Error]
    object, as the cast in the source has it; a rejection with [null] or
    [undefined], on which reading [.message] would itself throw, is outside
    this model. *)
Definition on_error (error : Error) : Async Σ Response :=
  let msg := message error in
  if String.eqb msg IMAGE_FILE_NOT_FOUND then
    mret (send HTTP_STATUS.BAD_REQUEST (Text IMAGE_FILE_NOT_FOUND))
  else
    mret (send HTTP_STATUS.INTERNAL_SERVER_ERROR (Text IMAGE_PROCESSING_FAILED)).

(** [router.post('/images', handler)] *)
Definition post_images (req : Request) : Async Σ Response :=
  match headers req !! "authorization" with
  | None => mret unauthorized
  | Some authorization =>
      if negb (truthy_string authorization) then mret unauthorized
      else
        let imgUrl := get (body req) "imgUrl" in
        let isUploadedFile := false in
        valid ← call_isValidImage imgUrl;
        if negb valid then
          mret (send HTTP_STATUS.BAD_REQUEST
                  (Json {[ "message" := JsString IMAGE_FILE_TYPE_UNSUPPORTED ]}))
        else
          try_catch
            (isLocal ← call_isLocalFile imgUrl;
             '(imgUrl, isUploadedFile) ←
               (if isLocal : bool then
                  url ← ImageService_handleLocalFile imgUrl authorization;
                  mret (JsString url, true)
                else mret (imgUrl, isUploadedFile));
             let updatedBody := spread_with (body req) "imgUrl" imgUrl in
             result ← ImageService_createImage updatedBody isUploadedFile
                        authorization;
             mret (send HTTP_STATUS.OKAY (Json (spread result))))
            on_error
  end.

End Create.

(** ** Test doubles

    Concrete collaborators on which the handlers can be run. *)

Module Doubles.

(** A world for the detection and storage service: the uploads present on
    the host and the records created so far. *)
Record World : Type := mkWorld {
  uploads : list string;
  created : list (gmap string JsValue)
}.

Definition ends_with (suffix s : string) : bool :=
  String.eqb
    (substring (String.length s - String.length suffix)
       (String.length suffix) s)
    suffix.

(** Accepts strings naming a [.png] or [.jpg] file. *)
Definition valid_image (v : JsValue) : bool :=
  match v with
  | JsString s => ends_with ".png" s || ends_with ".jpg" s
  | _ => false
  end.

(** A reference is remote when it starts with [http]. *)
Definition local_file (v : JsValue) : bool :=
  match v with
  | JsString s => negb (String.prefix "http" s)
  | _ => false
  end.

Definition lib : ImageLib :=
  {| isValidImage := valid_image; isLocalFile := local_file |}.

(** Resolves an upload that is present to a durable address, and reports
    the others as not found. *)
Definition resolve (imgUrl : JsValue) (authorization : string) (w : World)
  : Outcome string * World :=
  match imgUrl with
  | JsString path =>
      if bool_decide (path ∈ uploads w) then
        (Fulfilled ("https://cdn.example/" ++ path), w)
      else (Rejected (mkError IMAGE_FILE_NOT_FOUND), w)
  | _ => (Rejected (mkError "not a path"), w)
  end.

(** Persists the record it is given, tagged with the upload flag. *)
Definition persist (record : gmap string JsValue) (isUploadedFile : bool)
  (authorization : string) (w : World)
  : Outcome (gmap string JsValue) * World :=
  let saved := <["isUploadedFile" := JsBool isUploadedFile]> record in
  (Fulfilled saved,
   {| uploads := uploads w; created := created w ++ [saved] |}).

(** A delegate that always fails with the given message. *)
Definition refuse (msg : string) (record : gmap string JsValue)
  (isUploadedFile : bool) (authorization : string) (w : World)
  : Outcome (gmap string JsValue) * World :=
  (Rejected (mkError msg), w).

Definition working_service : ImageService World :=
  {| handleLocalFile := resolve; createImage := persist |}.

Definition failing_service (msg : string) : ImageService World :=
  {| handleLocalFile := resolve; createImage := refuse msg |}.

Definition missing_auth : string := "authorization header is missing".

(** The create route over the working service, and over a service whose
    delegate refuses with a given message. *)
Definition create : Request -> Async World Response :=
  @post_images World working_service lib missing_auth.

Definition create_refusing (msg : string)
  : Request -> Async World Response :=
  @post_images World (failing_service msg) lib missing_auth.

Definition empty_world : World := {| uploads := []; created := [] |}.

Definition world_with_cat : World :=
  {| uploads := ["uploads/cat.png"]; created := [] |}.

Definition post (authorization : option string) (fields : gmap string JsValue)
  : Request :=
  {| headers :=
       match authorization with
       | Some a => {[ "authorization" := a ]}
       | None => ∅
       end;
     query := ∅;
     params := ∅;
     body := fields |}.

Definition remote_body : gmap string JsValue :=
  {[ "imgUrl" := JsString "https://example.com/dog.jpg";
     "label" := JsString "a dog" ]}.

Definition local_body : gmap string JsValue :=
  {[ "imgUrl" := JsString "uploads/cat.png" ]}.

Definition missing_body : gmap string JsValue :=
  {[ "imgUrl" := JsString "uploads/owl.png" ]}.

Definition text_body : gmap string JsValue :=
  {[ "imgUrl" := JsString "notes.txt" ]}.

(** A middleware that lets every request through. *)
Definition pass : Middleware := fun _ => None.

Definition cat_fields : ImageMetadata.Fields :=
  {| ImageMetadata.imgUrl := "https://example.com/cat.jpg";
     ImageMetadata.objects := ["cat"; "sofa"];
     ImageMetadata.isUploadedFile := false;
     ImageMetadata.others := ∅ |}.

Definition dog_fields : ImageMetadata.Fields :=
  {| ImageMetadata.imgUrl := "https://example.com/dog.jpg";
     ImageMetadata.objects := ["dog"];
     ImageMetadata.isUploadedFile := false;
     ImageMetadata.others := ∅ |}.

Definition tree_fields : ImageMetadata.Fields :=
  {| ImageMetadata.imgUrl := "https://cdn.example/uploads/tree.png";
     ImageMetadata.objects := ["tree"];
     ImageMetadata.isUploadedFile := true;
     ImageMetadata.others := ∅ |}.

Definition db : ImageMetadata.Collection :=
  {[ "a1" := cat_fields; "b2" := dog_fields; "c3" := tree_fields ]}.

Definition list_request (objects : option QueryValue) : Request :=
  {| headers := ∅;
     query :=
       match objects with
       | Some q => {[ "objects" := q ]}
       | None => ∅
       end;
     params := ∅;
     body := ∅ |}.

Definition fetch_request (id : string) : Request :=
  {| headers := ∅; query := ∅; params := {[ "id" := id ]}; body := ∅ |}.

End Doubles.

(** ** Reading the call log *)

(** The identity token a call to the service carries, if it is such a call. *)
Definition call_authorization (c : Call) : option string :=
  match c with
  | CallHandleLocalFile _ authorization => Some authorization
  | CallCreateImage _ _ authorization => Some authorization
  | _ => None
  end.

(** How often a character occurs in a string. *)
Definition occurrences (c : ascii) (s : string) : nat :=
  count_occ ascii_dec (list_ascii_of_string s) c.

(** A service whose resolver leaves an upload where it is and answers with
    the very path it was given. *)
Module Echo.

Definition same_path (imgUrl : JsValue) (authorization : string)
  (w : Doubles.World) : Outcome string * Doubles.World :=
  match imgUrl with
  | JsString path => (Fulfilled path, w)
  | _ => (Rejected (mkError "not a path"), w)
  end.

Definition service : ImageService Doubles.World :=
  {| handleLocalFile := same_path; createImage := Doubles.persist |}.

Definition create : Request -> Async Doubles.World Response :=
  @post_images Doubles.World service Doubles.lib Doubles.missing_auth.

End Echo.

(** A service whose storage cannot be reached: the resolver rejects every
    reference with a message of its own. *)
Module Outage.

Definition offline (imgUrl : JsValue) (authorization : string)
  (w : Doubles.World) : Outcome string * Doubles.World :=
  (Rejected (mkError "storage offline"), w).

Definition service : ImageService Doubles.World :=
  {| handleLocalFile := offline; createImage := Doubles.persist |}.

Definition create : Request -> Async Doubles.World Response :=
  @post_images Doubles.World service Doubles.lib Doubles.missing_auth.

End Outage.

(** ** Running the handlers on the doubles *)

Example split_cat_dog : split "," "cat,dog" = ["cat"; "dog"].
Proof. reflexivity. Qed.

Example split_empty : split "," "" = [""].
Proof. reflexivity. Qed.

Example split_trailing : split "," "cat," = ["cat"; ""].
Proof. reflexivity. Qed.

Example run_remote_create :
  run (Doubles.create (Doubles.post (Some "token") Doubles.remote_body))
      Doubles.empty_world
  = (Fulfilled
       (send 200
          (Json (<["isUploadedFile" := JsBool false]> Doubles.remote_body))),
     {| world :=
          {| Doubles.uploads := [];
             Doubles.created :=
               [<["isUploadedFile" := JsBool false]> Doubles.remote_body] |};
        calls :=
          [CallIsValidImage (JsString "https://example.com/dog.jpg");
           CallIsLocalFile (JsString "https://example.com/dog.jpg");
           CallCreateImage Doubles.remote_body false "token"] |}).
Proof. vm_compute. reflexivity. Qed.

Example run_list_cat_dog :
  fst (run (get_images Doubles.pass
              (Doubles.list_request (Some (QString "cat,dog"))))
         Doubles.db)
  = Fulfilled
      (send 200
         (Documents [("a1", Doubles.cat_fields); ("b2", Doubles.dog_fields)])).
Proof. vm_compute. reflexivity. Qed.

Example run_local_create :
  run (Doubles.create (Doubles.post (Some "token") Doubles.local_body))
      Doubles.world_with_cat
  = (Fulfilled
       (send 200
          (Json {[ "imgUrl" := JsString "https://cdn.example/uploads/cat.png";
                   "isUploadedFile" := JsBool true ]})),
     {| world :=
          {| Doubles.uploads := ["uploads/cat.png"];
             Doubles.created :=
               [{[ "imgUrl" := JsString "https://cdn.example/uploads/cat.png";
                   "isUploadedFile" := JsBool true ]}] |};
        calls :=
          [CallIsValidImage (JsString "uploads/cat.png");
           CallIsLocalFile (JsString "uploads/cat.png");
           CallHandleLocalFile (JsString "uploads/cat.png") "token";
           CallCreateImage
             {[ "imgUrl" := JsString "https://cdn.example/uploads/cat.png" ]}
             true "token"] |}).
Proof. vm_compute. reflexivity. Qed.

Example run_local_missing :
  fst (run (Doubles.create (Doubles.post (Some "token") Doubles.missing_body))
         Doubles.world_with_cat)
  = Fulfilled (send 400 (Text "image file not found")).
Proof. vm_compute. reflexivity. Qed.

Example run_delegate_refuses :
  fst (run (Doubles.create_refusing "disk full"
              (Doubles.post (Some "token") Doubles.local_body))
         Doubles.world_with_cat)
  = Fulfilled (send 500 (Text "image processing failed")).
Proof. vm_compute. reflexivity. Qed.

Example run_missing_imgUrl :
  run (Doubles.create (Doubles.post (Some "token") ∅)) Doubles.empty_world
  = (Fulfilled
       (send 400 (Json {[ "message" := JsString "unsupported image file type" ]})),
     {| world := Doubles.empty_world;
        calls := [CallIsValidImage JsUndefined] |}).
Proof. vm_compute. reflexivity. Qed.

Example run_list_all :
  fst (run (get_images Doubles.pass (Doubles.list_request None)) Doubles.db)
  = Fulfilled
      (send 200
         (Documents
            [("c3", Doubles.tree_fields); ("a1", Doubles.cat_fields);
             ("b2", Doubles.dog_fields)])).
Proof. vm_compute. reflexivity. Qed.

Example run_fetch_missing :
  run (get_image_by_id Doubles.pass (Doubles.fetch_request "zz")) Doubles.db
  = (Fulfilled
       (send 400 (Json {[ "message" := JsString "image not found" ]})),
     {| world := Doubles.db; calls := [CallFindById "zz"] |}).
Proof. vm_compute. reflexivity. Qed.

(** ** Properties of the JavaScript primitives *)

Lemma split_nonempty (sep : ascii) (s : string) : split sep s <> [].
Proof.
  destruct s as [| c rest]; cbn; [discriminate |].
  destruct (Ascii.eqb c sep); [discriminate |].
  destruct (split sep rest); discriminate.
Qed.

(** Joining the pieces with the separator gives the string back. *)
Lemma concat_split (sep : ascii) (s : string) :
  String.concat (String sep EmptyString) (split sep s) = s.
Proof.
  induction s as [| c rest IH]; cbn; [reflexivity |].
  destruct (Ascii.eqb c sep) eqn:Hc.
  - apply Ascii.eqb_eq in Hc. subst c.
    pose proof (split_nonempty sep rest) as Hne.
    cbn. destruct (split sep rest) as [| piece pieces]; [congruence |].
    now rewrite IH.
  - pose proof (split_nonempty sep rest) as Hne.
    destruct (split sep rest) as [| piece pieces]; [congruence |].
    cbn in *. destruct pieces as [| piece' pieces]; cbn in *.
    + now rewrite IH.
    + now rewrite <- IH.
Qed.

(** No piece contains the separator. *)
Lemma split_pieces_free (sep : ascii) (s piece : string) :
  In piece (split sep s) -> ~ In sep (list_ascii_of_string piece).
Proof.
  revert piece. induction s as [| c rest IH]; cbn; intros piece Hin.
  - destruct Hin as [<- | []]. cbn. tauto.
  - destruct (Ascii.eqb c sep) eqn:Hc.
    + destruct Hin as [<- | Hin]; [cbn; tauto | now apply IH].
    + destruct (split sep rest) as [| p ps] eqn:Hsplit.
      * now destruct (split_nonempty sep rest).
      * destruct Hin as [<- | Hin].
        -- cbn. intros [-> | Hin].
           ++ now rewrite Ascii.eqb_refl in Hc.
           ++ apply (IH p); [now left | exact Hin].
        -- apply IH. now right.
Qed.

(** ** Properties of the create route *)

(** Unfold the promise monad and the logged calls down to the collaborators. *)
Ltac step_handler :=
  unfold run, post_images, try_catch, on_error, unauthorized,
    call_isValidImage, call_isLocalFile, ImageService_handleLocalFile,
    ImageService_createImage, invoke, mbind, Async_bind, mret, Async_ret;
  cbn [world calls app negb fst snd].

Ltac step_reader :=
  unfold run, get_images, get_images_handler, get_image_by_id,
    get_image_by_id_handler, guarded, ImageMetadata_find,
    ImageMetadata_findById, invoke, mbind, Async_bind, mret, Async_ret;
  cbn [world calls app fst snd].

Lemma get_spread_with_eq (o : gmap string JsValue) (k : string) (v : JsValue) :
  get (spread_with o k v) k = v.
Proof. unfold get, spread_with. now rewrite lookup_insert_eq. Qed.

Lemma get_spread_with_ne (o : gmap string JsValue) (k k' : string)
  (v : JsValue) :
  k <> k' -> get (spread_with o k v) k' = get o k'.
Proof. intros Hk. unfold get, spread_with. now rewrite lookup_insert_ne. Qed.

(** Writing back the value a property already reads as changes no reading. *)
Lemma get_spread_with_get (o : gmap string JsValue) (k k' : string) :
  get (spread_with o k (get o k)) k' = get o k'.
Proof.
  destruct (decide (k = k')) as [<- | Hk].
  - apply get_spread_with_eq.
  - now apply get_spread_with_ne.
Qed.

Lemma truthy_string_nonempty (s : string) :
  truthy_string s = true <-> s <> "".
Proof. destruct s; cbn; split; intros; congruence. Qed.

Section CreateProperties.

Context {Σ : Type} {service : ImageService Σ} {lib : ImageLib}.

Variable MISSING_AUTH : string.

(** With collaborators that reject with [Error] objects only and predicates
    that do not throw, which is all the model has, the create handler
    fulfils on every path. *)
Lemma post_images_always_answers (req : Request) (w : Σ) :
  exists res env, run (post_images MISSING_AUTH req) w = (Fulfilled res, env).
Proof.
  step_handler.
  destruct (headers req !! "authorization") as [authorization |];
    [| eauto].
  destruct (truthy_string authorization); cbn; [| eauto].
  destruct (isValidImage (get (body req) "imgUrl")); cbn; [| eauto].
  destruct (isLocalFile (get (body req) "imgUrl")); cbn.
  - destruct (handleLocalFile _ _ _) as [[url | e] w1]; cbn.
    + destruct (createImage _ _ _ _) as [[created | e] w2]; cbn; [eauto |].
      destruct (String.eqb _ _); eauto.
    + destruct (String.eqb _ _); eauto.
  - destruct (createImage _ _ _ _) as [[created | e] w2]; cbn; [eauto |].
    destruct (String.eqb _ _); eauto.
Qed.

(** C1.  A create request without an [authorization] header is answered 401
    with the missing-authorization message, whatever its body holds; no
    call is logged (neither validation, nor resolution, nor creation) and
    the world is left as it was. *)
Theorem post_images_absent_authorization (req : Request) (w : Σ) :
  headers req !! "authorization" = None ->
  run (post_images MISSING_AUTH req) w
  = (Fulfilled (send 401 (Text MISSING_AUTH)), {| world := w; calls := [] |}).
Proof.
  intros Hauth. step_handler. rewrite Hauth. reflexivity.
Qed.

(** C10.  A create request whose [authorization] header is the empty string
    is answered like one without the header: 401 with the
    missing-authorization message, no call logged, the world untouched. *)
Theorem post_images_empty_authorization (req : Request) (w : Σ) :
  headers req !! "authorization" = Some "" ->
  run (post_images MISSING_AUTH req) w
  = (Fulfilled (send 401 (Text MISSING_AUTH)), {| world := w; calls := [] |})
  /\ run (post_images MISSING_AUTH req) w
     = run (post_images MISSING_AUTH
              {| headers := delete "authorization" (headers req);
                 query := query req;
                 params := params req;
                 body := body req |}) w.
Proof.
  intros Hauth. step_handler. rewrite Hauth. cbn.
  rewrite lookup_delete_eq. split; reflexivity.
Qed.

(** C2.  An authenticated create request whose [imgUrl] fails validation is
    answered 400 with [{message: "unsupported image file type"}]; the only
    call logged is the validation itself, so neither the resolver nor the
    delegate is invoked and the world is untouched. *)
Theorem post_images_unsupported_type (req : Request) (w : Σ)
  (authorization : string) :
  headers req !! "authorization" = Some authorization ->
  authorization <> "" ->
  isValidImage (get (body req) "imgUrl") = false ->
  let (res, env) := run (post_images MISSING_AUTH req) w in
  res = Fulfilled
          (send 400 (Json {[ "message" := JsString "unsupported image file type" ]}))
  /\ calls env = [CallIsValidImage (get (body req) "imgUrl")]
  /\ invocations is_handleLocalFile (calls env) = 0%nat
  /\ invocations is_createImage (calls env) = 0%nat
  /\ invocations is_external (calls env) = 0%nat
  /\ world env = w.
Proof.
  intros Hauth Hne Hvalid. step_handler. rewrite Hauth.
  apply truthy_string_nonempty in Hne. rewrite Hne. cbn.
  rewrite Hvalid. cbn. repeat split; reflexivity.
Qed.

(** C3.  An authenticated create request with a valid reference classified
    as remote: the delegate is called exactly once, with the upload flag
    false and a record whose [imgUrl] (and every other field) reads as in the
    request body; the resolver is never called; when the delegate fulfils,
    the answer is 200 with the created record. *)
Theorem post_images_remote (req : Request) (w : Σ) (authorization : string) :
  headers req !! "authorization" = Some authorization ->
  authorization <> "" ->
  isValidImage (get (body req) "imgUrl") = true ->
  isLocalFile (get (body req) "imgUrl") = false ->
  let imgUrl := get (body req) "imgUrl" in
  let record := spread_with (body req) "imgUrl" imgUrl in
  let (res, env) := run (post_images MISSING_AUTH req) w in
  calls env = [CallIsValidImage imgUrl; CallIsLocalFile imgUrl;
               CallCreateImage record false authorization]
  /\ get record "imgUrl" = imgUrl
  /\ (forall k, get record k = get (body req) k)
  /\ invocations is_handleLocalFile (calls env) = 0%nat
  /\ invocations is_createImage (calls env) = 1%nat
  /\ (forall created w',
        createImage record false authorization w = (Fulfilled created, w') ->
        res = Fulfilled (send 200 (Json created)) /\ world env = w').
Proof.
  intros Hauth Hne Hvalid Hlocal imgUrl record. step_handler. rewrite Hauth.
  apply truthy_string_nonempty in Hne. rewrite Hne. cbn.
  rewrite Hvalid. cbn. rewrite Hlocal. cbn.
  fold imgUrl. fold record.
  destruct (createImage record false authorization w)
    as [[created | e] w'] eqn:Hcreate; cbn;
    [| destruct (String.eqb (message e) IMAGE_FILE_NOT_FOUND); cbn ];
    (split; [reflexivity |]);
    (split; [apply get_spread_with_eq |]);
    (split; [apply get_spread_with_get |]);
    (split; [reflexivity |]);
    (split; [reflexivity |]);
    intros created' w'' [= <- <-] || intros created' w'' [=];
    split; reflexivity.
Qed.


(** C5.  An authenticated create request with a valid local reference whose
    resolution is rejected with the file-not-found error is answered 400 with
    the text "image file not found", and the delegate is never called. *)
Theorem post_images_local_not_found (req : Request) (w w1 : Σ)
  (authorization : string) (e : Error) :
  headers req !! "authorization" = Some authorization ->
  authorization <> "" ->
  isValidImage (get (body req) "imgUrl") = true ->
  isLocalFile (get (body req) "imgUrl") = true ->
  handleLocalFile (get (body req) "imgUrl") authorization w = (Rejected e, w1) ->
  message e = IMAGE_FILE_NOT_FOUND ->
  let imgUrl := get (body req) "imgUrl" in
  let (res, env) := run (post_images MISSING_AUTH req) w in
  res = Fulfilled (send 400 (Text "image file not found"))
  /\ invocations is_createImage (calls env) = 0%nat
  /\ calls env = [CallIsValidImage imgUrl; CallIsLocalFile imgUrl;
                  CallHandleLocalFile imgUrl authorization]
  /\ world env = w1.
Proof.
  intros Hauth Hne Hvalid Hlocal Hresolve Hmsg imgUrl. step_handler.
  rewrite Hauth. apply truthy_string_nonempty in Hne. rewrite Hne. cbn.
  rewrite Hvalid. cbn. rewrite Hlocal. cbn. rewrite Hresolve. cbn.
  rewrite Hmsg. cbn. repeat split; reflexivity.
Qed.

(** C6 (amended).  In an authenticated create request with a valid
    reference, a rejection of the resolver or of the delegate whose message
    is not the file-not-found text is answered 500 with the text "image
    processing failed"; a rejection of the delegate that carries the
    file-not-found text is answered like the resolver's, 400 with "image file
    not found". *)
Theorem post_images_failure_mapping (req : Request) (w : Σ)
  (authorization : string) :
  headers req !! "authorization" = Some authorization ->
  authorization <> "" ->
  isValidImage (get (body req) "imgUrl") = true ->
  let imgUrl := get (body req) "imgUrl" in
  let res := fst (run (post_images MISSING_AUTH req) w) in
  let failed := Fulfilled (send 500 (Text "image processing failed")) in
  let not_found := Fulfilled (send 400 (Text "image file not found")) in
  (forall e w1,
     isLocalFile imgUrl = true ->
     handleLocalFile imgUrl authorization w = (Rejected e, w1) ->
     message e <> IMAGE_FILE_NOT_FOUND ->
     res = failed)
  /\ (forall url w1 e w2,
        isLocalFile imgUrl = true ->
        handleLocalFile imgUrl authorization w = (Fulfilled url, w1) ->
        createImage (spread_with (body req) "imgUrl" (JsString url)) true
          authorization w1 = (Rejected e, w2) ->
        (message e <> IMAGE_FILE_NOT_FOUND -> res = failed)
        /\ (message e = IMAGE_FILE_NOT_FOUND -> res = not_found))
  /\ (forall e w1,
        isLocalFile imgUrl = false ->
        createImage (spread_with (body req) "imgUrl" imgUrl) false
          authorization w = (Rejected e, w1) ->
        (message e <> IMAGE_FILE_NOT_FOUND -> res = failed)
        /\ (message e = IMAGE_FILE_NOT_FOUND -> res = not_found)).
Proof.
  intros Hauth Hne Hvalid imgUrl res failed not_found.
  subst res. step_handler. rewrite Hauth.
  apply truthy_string_nonempty in Hne. rewrite Hne. cbn.
  rewrite Hvalid. cbn. fold imgUrl.
  split; [| split].
  - intros e w1 Hlocal Hresolve Hmsg.
    rewrite Hlocal. cbn. rewrite Hresolve. cbn.
    apply String.eqb_neq in Hmsg. rewrite Hmsg. reflexivity.
  - intros url w1 e w2 Hlocal Hresolve Hcreate.
    rewrite Hlocal. cbn. rewrite Hresolve. cbn. rewrite Hcreate. cbn.
    split; intros Hmsg.
    + apply String.eqb_neq in Hmsg. rewrite Hmsg. reflexivity.
    + apply String.eqb_eq in Hmsg. rewrite Hmsg. reflexivity.
  - intros e w1 Hlocal Hcreate.
    rewrite Hlocal. cbn. rewrite Hcreate. cbn.
    split; intros Hmsg.
    + apply String.eqb_neq in Hmsg. rewrite Hmsg. reflexivity.
    + apply String.eqb_eq in Hmsg. rewrite Hmsg. reflexivity.
Qed.

End CreateProperties.

(** ** Properties of the document model *)

Lemma intersects_spec (labels : list string) (f : ImageMetadata.Fields) :
  ImageMetadata.intersects labels f = true
  <-> exists label, label ∈ labels /\ label ∈ ImageMetadata.objects f.
Proof.
  unfold ImageMetadata.intersects. rewrite existsb_exists. split.
  - intros (o & Hin & Hdec). exists o. split.
    + now apply bool_decide_eq_true in Hdec.
    + now apply list_elem_of_In.
  - intros (o & Hlabel & Hobj). exists o. split.
    + now apply list_elem_of_In.
    + now apply bool_decide_eq_true.
Qed.

(** [find] returns exactly the stored documents that match, each once. *)
Lemma elem_of_find (q : ImageMetadata.Filter) (db : ImageMetadata.Collection)
  (id : string) (f : ImageMetadata.Fields) :
  (id, f) ∈ ImageMetadata.find q db
  <-> db !! id = Some f /\ ImageMetadata.matches q (id, f) = true.
Proof.
  unfold ImageMetadata.find, ImageMetadata.Collection in *. split.
  - intros Hin. apply list_elem_of_In, List.filter_In in Hin.
    destruct Hin as [Hin Hq]. split; [| exact Hq].
    now apply elem_of_map_to_list, list_elem_of_In.
  - intros [Hdb Hq]. apply list_elem_of_In, List.filter_In.
    split; [| exact Hq].
    now apply list_elem_of_In, elem_of_map_to_list.
Qed.

Lemma NoDup_list_filter {A} (p : A -> bool) (l : list A) :
  NoDup l -> NoDup (List.filter p l).
Proof.
  induction 1 as [| x l Hx Hl IH]; cbn; [constructor |].
  destruct (p x); [| exact IH].
  constructor; [| exact IH].
  intros Hin. apply Hx.
  apply list_elem_of_In, List.filter_In in Hin.
  now apply list_elem_of_In.
Qed.

Lemma NoDup_find (q : ImageMetadata.Filter) (db : ImageMetadata.Collection) :
  NoDup (ImageMetadata.find q db).
Proof. apply NoDup_list_filter, NoDup_map_to_list. Qed.

Lemma find_All (db : ImageMetadata.Collection) :
  ImageMetadata.find ImageMetadata.All db = map_to_list db.
Proof.
  unfold ImageMetadata.find.
  induction (map_to_list db) as [| d ds IH]; cbn; [reflexivity |].
  now rewrite IH.
Qed.

(** ** Properties of the read routes *)

Section ReadProperties.

Variable validateImageGetParams : Middleware.
Variable validateObjectId : Middleware.

(** C7 (amended).  A list request that passes the parameter validator is
    answered 200 with stored documents, each once.  When its [objects]
    parameter is a non-empty string, they are exactly the stored documents
    whose [objects] contain at least one of the comma-separated labels; when
    the parameter is absent, or is the empty string, they are all the stored
    documents. *)
Theorem get_images_lists (req : Request) (db : ImageMetadata.Collection) :
  validateImageGetParams req = None ->
  let (res, env) := run (get_images validateImageGetParams req) db in
  exists images,
    res = Fulfilled (send 200 (Documents images))
    /\ NoDup images
    /\ world env = db
    /\ (forall s,
          query req !! "objects" = Some (QString s) -> s <> "" ->
          forall id f,
            (id, f) ∈ images
            <-> db !! id = Some f
                /\ exists label,
                     label ∈ split "," s /\ label ∈ ImageMetadata.objects f)
    /\ (query req !! "objects" = None
        \/ query req !! "objects" = Some (QString "") ->
        forall id f, (id, f) ∈ images <-> db !! id = Some f).
Proof.
  intros Hpass. step_reader. rewrite Hpass.
  destruct (query req !! "objects") as [[s | elems | fields] |] eqn:Hq; cbn;
    [destruct s as [| c s]; cbn | | |];
    eexists; (split; [reflexivity |]); (split; [apply NoDup_find |]);
    (split; [reflexivity |]); split.
  all: try (intros s' [= <-] Hs; congruence).
  all: try (intros s' [=]; fail).
  all: try (intros _ id f; rewrite find_All; apply elem_of_map_to_list).
  all: try (intros [[=] | [=]]; fail).
  intros s' [= <-] _ id f. rewrite elem_of_find. cbn.
  now rewrite intersects_spec.
Qed.

(** C8.  A fetch request whose identifier passes the identifier validator is
    answered 400 with [{message: "image not found"}] when the collection has
    no document under that identifier, and 200 with the stored document when
    it has one. *)
Theorem get_image_by_id_found_or_not (req : Request) (id : string)
  (db : ImageMetadata.Collection) :
  params req !! "id" = Some id ->
  validateObjectId req = None ->
  let (res, env) := run (get_image_by_id validateObjectId req) db in
  world env = db
  /\ calls env = [CallFindById id]
  /\ (db !! id = None ->
      res = Fulfilled
              (send 400 (Json {[ "message" := JsString "image not found" ]})))
  /\ (forall f, db !! id = Some f ->
                res = Fulfilled (send 200 (Document (id, f)))).
Proof.
  intros Hid Hpass. step_reader. rewrite Hpass.
  unfold param. rewrite Hid. cbn. unfold ImageMetadata.findById.
  destruct (db !! id) as [f |] eqn:Hdb; cbn.
  - repeat split; [discriminate | now intros f' [= <-]].
  - repeat split. discriminate.
Qed.

(** C9.  A list request whose [objects] parameter is present but is not a
    string (an array, a nested object) and that passes the parameter
    validator is answered 200 with every stored document, by the unfiltered
    query, exactly as the handler answers the same request with the
    parameter removed. *)
Theorem get_images_non_string_objects (req : Request) (v : QueryValue)
  (db : ImageMetadata.Collection) :
  query req !! "objects" = Some v ->
  (forall s, v <> QString s) ->
  validateImageGetParams req = None ->
  run (get_images validateImageGetParams req) db
  = (Fulfilled (send 200 (Documents (map_to_list db))),
     {| world := db; calls := [CallFind ImageMetadata.All] |})
  /\ (forall id f, (id, f) ∈ map_to_list db <-> db !! id = Some f)
  /\ run (get_images_handler req) db
     = run (get_images_handler
              {| headers := headers req;
                 query := delete "objects" (query req);
                 params := params req;
                 body := body req |}) db.
Proof.
  intros Hq Hv Hpass. step_reader. rewrite Hpass, Hq. cbn.
  rewrite lookup_delete_eq.
  destruct v as [s | elems | fields]; [now destruct (Hv s) | |]; cbn;
    rewrite find_All; (split; [reflexivity |]);
    (split; [intros id f; apply elem_of_map_to_list | reflexivity]).
Qed.

End ReadProperties.

(** ** The properties at concrete requests *)

Lemma post_images_absent_authorization_witness :
  headers (Doubles.post None Doubles.text_body) !! "authorization" = None
  /\ run (Doubles.create (Doubles.post None Doubles.text_body))
       Doubles.empty_world
     = (Fulfilled (send 401 (Text Doubles.missing_auth)),
        {| world := Doubles.empty_world; calls := [] |}).
Proof.
  split; [reflexivity |].
  apply (@post_images_absent_authorization _ Doubles.working_service
           Doubles.lib Doubles.missing_auth).
  reflexivity.
Defined.

Lemma post_images_empty_authorization_witness :
  headers (Doubles.post (Some "") Doubles.remote_body) !! "authorization"
  = Some ""
  /\ run (Doubles.create (Doubles.post (Some "") Doubles.remote_body))
       Doubles.empty_world
     = (Fulfilled (send 401 (Text Doubles.missing_auth)),
        {| world := Doubles.empty_world; calls := [] |}).
Proof.
  split; [reflexivity |].
  apply (@post_images_empty_authorization _ Doubles.working_service
           Doubles.lib Doubles.missing_auth).
  reflexivity.
Defined.

Lemma post_images_unsupported_type_witness :
  let req := Doubles.post (Some "token") Doubles.text_body in
  let (res, env) := run (Doubles.create req) Doubles.empty_world in
  res = Fulfilled
          (send 400 (Json {[ "message" := JsString "unsupported image file type" ]}))
  /\ calls env = [CallIsValidImage (JsString "notes.txt")]
  /\ invocations is_handleLocalFile (calls env) = 0%nat
  /\ invocations is_createImage (calls env) = 0%nat
  /\ invocations is_external (calls env) = 0%nat
  /\ world env = Doubles.empty_world.
Proof.
  apply (@post_images_unsupported_type _ Doubles.working_service
           Doubles.lib Doubles.missing_auth
           (Doubles.post (Some "token") Doubles.text_body)
           Doubles.empty_world "token");
    [reflexivity | discriminate | reflexivity].
Defined.

Lemma post_images_remote_witness :
  let req := Doubles.post (Some "token") Doubles.remote_body in
  let imgUrl := get (body req) "imgUrl" in
  let record := spread_with (body req) "imgUrl" imgUrl in
  let (res, env) := run (Doubles.create req) Doubles.empty_world in
  calls env = [CallIsValidImage imgUrl; CallIsLocalFile imgUrl;
               CallCreateImage record false "token"]
  /\ get record "imgUrl" = imgUrl
  /\ (forall k, get record k = get (body req) k)
  /\ invocations is_handleLocalFile (calls env) = 0%nat
  /\ invocations is_createImage (calls env) = 1%nat
  /\ (forall created w',
        Doubles.persist record false "token" Doubles.empty_world
        = (Fulfilled created, w') ->
        res = Fulfilled (send 200 (Json created)) /\ world env = w').
Proof.
  apply (@post_images_remote _ Doubles.working_service Doubles.lib
           Doubles.missing_auth
           (Doubles.post (Some "token") Doubles.remote_body)
           Doubles.empty_world "token");
    [reflexivity | discriminate | reflexivity | reflexivity].
Defined.


Lemma post_images_local_not_found_witness :
  let req := Doubles.post (Some "token") Doubles.missing_body in
  let imgUrl := JsString "uploads/owl.png" in
  let (res, env) := run (Doubles.create req) Doubles.world_with_cat in
  res = Fulfilled (send 400 (Text "image file not found"))
  /\ invocations is_createImage (calls env) = 0%nat
  /\ calls env = [CallIsValidImage imgUrl; CallIsLocalFile imgUrl;
                  CallHandleLocalFile imgUrl "token"]
  /\ world env = Doubles.world_with_cat.
Proof.
  apply (@post_images_local_not_found _ Doubles.working_service Doubles.lib
           Doubles.missing_auth
           (Doubles.post (Some "token") Doubles.missing_body)
           Doubles.world_with_cat Doubles.world_with_cat "token"
           (mkError IMAGE_FILE_NOT_FOUND));
    [reflexivity | discriminate | reflexivity | reflexivity | reflexivity
    | reflexivity].
Defined.

Lemma post_images_failure_mapping_witness :
  fst (run (Doubles.create_refusing "detector unavailable"
              (Doubles.post (Some "token") Doubles.remote_body))
         Doubles.empty_world)
  = Fulfilled (send 500 (Text "image processing failed")).
Proof.
  refine (proj1
            (proj2 (proj2
               (@post_images_failure_mapping _
                  (Doubles.failing_service "detector unavailable")
                  Doubles.lib Doubles.missing_auth
                  (Doubles.post (Some "token") Doubles.remote_body)
                  Doubles.empty_world "token" _ _ _))
               (mkError "detector unavailable") Doubles.empty_world _ _) _);
    [reflexivity | discriminate | reflexivity | reflexivity | reflexivity
    | discriminate].
Defined.

(** C6, as stated, fails: on a remote reference the resolver is not involved,
    the delegate is rejected with the file-not-found text, and the answer is
    400 "image file not found", not the generic 500. *)
Lemma post_images_delegate_not_found_is_400 :
  Doubles.local_file (get Doubles.remote_body "imgUrl") = false
  /\ Doubles.refuse "image file not found" Doubles.remote_body false "token"
       Doubles.empty_world
     = (Rejected (mkError "image file not found"), Doubles.empty_world)
  /\ run (Doubles.create_refusing "image file not found"
            (Doubles.post (Some "token") Doubles.remote_body))
       Doubles.empty_world
     = (Fulfilled (send 400 (Text "image file not found")),
        {| world := Doubles.empty_world;
           calls :=
             [CallIsValidImage (JsString "https://example.com/dog.jpg");
              CallIsLocalFile (JsString "https://example.com/dog.jpg");
              CallCreateImage Doubles.remote_body false "token"] |})
  /\ send 400 (Text "image file not found")
     <> send 500 (Text "image processing failed").
Proof.
  split; [reflexivity |]. split; [reflexivity |].
  split; [vm_compute; reflexivity | discriminate].
Qed.

Lemma get_images_lists_witness :
  let req := Doubles.list_request (Some (QString "cat,dog")) in
  let (res, env) := run (get_images Doubles.pass req) Doubles.db in
  exists images,
    res = Fulfilled (send 200 (Documents images))
    /\ NoDup images
    /\ world env = Doubles.db
    /\ (forall s,
          query req !! "objects" = Some (QString s) -> s <> "" ->
          forall id f,
            (id, f) ∈ images
            <-> Doubles.db !! id = Some f
                /\ exists label,
                     label ∈ split "," s /\ label ∈ ImageMetadata.objects f)
    /\ (query req !! "objects" = None
        \/ query req !! "objects" = Some (QString "") ->
        forall id f, (id, f) ∈ images <-> Doubles.db !! id = Some f).
Proof.
  apply (get_images_lists Doubles.pass
           (Doubles.list_request (Some (QString "cat,dog"))) Doubles.db).
  reflexivity.
Defined.

(** C7, as stated, fails: with [objects] present as the empty string the
    handler takes the unfiltered branch and answers with every stored
    document, although none of them carries a label of that string (its only
    piece is the empty label). *)
Lemma get_images_empty_objects_unfiltered :
  query (Doubles.list_request (Some (QString ""))) !! "objects"
  = Some (QString "")
  /\ run (get_images Doubles.pass (Doubles.list_request (Some (QString ""))))
       Doubles.db
     = (Fulfilled
          (send 200
             (Documents
                [("c3", Doubles.tree_fields); ("a1", Doubles.cat_fields);
                 ("b2", Doubles.dog_fields)])),
        {| world := Doubles.db; calls := [CallFind ImageMetadata.All] |})
  /\ split "," "" = [""]
  /\ ImageMetadata.find (ImageMetadata.ObjectsIn (split "," "")) Doubles.db
     = [].
Proof.
  split; [reflexivity |]. split; [vm_compute; reflexivity |].
  split; [reflexivity | vm_compute; reflexivity].
Qed.

Lemma get_image_by_id_found_or_not_witness :
  let req := Doubles.fetch_request "b2" in
  let (res, env) := run (get_image_by_id Doubles.pass req) Doubles.db in
  world env = Doubles.db
  /\ calls env = [CallFindById "b2"]
  /\ (Doubles.db !! "b2" = None ->
      res = Fulfilled
              (send 400 (Json {[ "message" := JsString "image not found" ]})))
  /\ (forall f, Doubles.db !! "b2" = Some f ->
                res = Fulfilled (send 200 (Document ("b2", f)))).
Proof.
  apply (get_image_by_id_found_or_not Doubles.pass
           (Doubles.fetch_request "b2") "b2" Doubles.db);
    reflexivity.
Defined.

Lemma get_images_non_string_objects_witness :
  run (get_images Doubles.pass
         (Doubles.list_request (Some (QArray [QString "cat"; QString "dog"]))))
    Doubles.db
  = (Fulfilled (send 200 (Documents (map_to_list Doubles.db))),
     {| world := Doubles.db; calls := [CallFind ImageMetadata.All] |}).
Proof.
  apply (get_images_non_string_objects Doubles.pass
           (Doubles.list_request (Some (QArray [QString "cat"; QString "dog"])))
           (QArray [QString "cat"; QString "dog"]) Doubles.db);
    [reflexivity | discriminate | reflexivity].
Defined.

(** ** The protocol of the create route *)

(** Follow the create handler along every path it can take: the header, the
    validation, the classification and the outcomes of the two service
    calls. *)
Ltac post_cases req w :=
  step_handler;
  destruct (headers req !! "authorization") as [[| c tok] |] eqn:Hauth; cbn;
  [ |
    destruct (isValidImage (get (body req) "imgUrl")) eqn:Hvalid; cbn;
    [ destruct (isLocalFile (get (body req) "imgUrl")) eqn:Hlocal; cbn;
      [ destruct (handleLocalFile (get (body req) "imgUrl") (String c tok) w)
          as [[url | e] w1] eqn:Hresolve; cbn;
        [ destruct (createImage
                      (spread_with (body req) "imgUrl" (JsString url)) true
                      (String c tok) w1)
            as [[created | e] w2] eqn:Hcreate; cbn;
          [ | destruct (String.eqb (message e) IMAGE_FILE_NOT_FOUND) eqn:Hmsg;
              cbn ]
        | destruct (String.eqb (message e) IMAGE_FILE_NOT_FOUND) eqn:Hmsg;
          cbn ]
      | destruct (createImage
                    (spread_with (body req) "imgUrl"
                       (get (body req) "imgUrl")) false (String c tok) w)
          as [[created | e] w1] eqn:Hcreate; cbn;
        [ | destruct (String.eqb (message e) IMAGE_FILE_NOT_FOUND) eqn:Hmsg;
            cbn ] ]
    | ]
  | ].

Section CreateProtocol.

Context {Σ : Type} {service : ImageService Σ} {lib : ImageLib}.

Variable MISSING_AUTH : string.


(** X2.  A create request never retries: the resolver and the delegate are
    each called at most once, at most four calls are made in all, and a call
    to the delegate, when there is one, is the last call. *)
Theorem post_images_no_retry (req : Request) (w : Σ) :
  let cs := calls (snd (run (post_images MISSING_AUTH req) w)) in
  (invocations is_handleLocalFile cs <= 1)%nat
  /\ (invocations is_createImage cs <= 1)%nat
  /\ (length cs <= 4)%nat
  /\ (invocations is_createImage cs = 1%nat ->
      exists record flag tok,
        last cs = Some (CallCreateImage record flag tok)).
Proof.
  intros cs. subst cs. post_cases req w; cbv [invocations]; cbn;
    repeat split; try lia; try discriminate; eauto.
Qed.

(** X3.  Identity forwarding: every call a create request makes to the
    service carries exactly the value of the request's [authorization]
    header, and that value is not empty. *)
Theorem post_images_forwards_token (req : Request) (w : Σ) :
  Forall
    (fun c =>
       forall tok,
         call_authorization c = Some tok ->
         headers req !! "authorization" = Some tok /\ tok <> "")
    (calls (snd (run (post_images MISSING_AUTH req) w))).
Proof.
  post_cases req w;
    repeat (constructor;
            [ cbn; intros tok' Htok;
              first [ discriminate Htok
                    | injection Htok as <-; split;
                      [reflexivity | discriminate] ]
            | ]);
    constructor.
Qed.

(** X4.  Whenever a create request is answered, the status is 200, 400,
    401 or 500.  It is 401 exactly when the request has no non-empty
    [authorization] header, and exactly then no call at all was made. *)
Theorem post_images_status_codes (req : Request) (w : Σ) (res : Response)
  (env : Env Σ) :
  run (post_images MISSING_AUTH req) w = (Fulfilled res, env) ->
  (status res = 200 \/ status res = 400 \/ status res = 401
   \/ status res = 500)
  /\ (status res = 401
      <-> ~ exists tok,
            headers req !! "authorization" = Some tok /\ tok <> "")
  /\ (calls env = [] <-> status res = 401).
Proof.
  post_cases req w; intros [= <- <-]; cbn;
    (split; [tauto |]); split; split;
    try discriminate; try tauto;
    try (intros Hno; exfalso; apply Hno; eexists; split;
         [reflexivity | discriminate]);
    try (intros _ (tok' & [= <-] & Hne); congruence);
    try (intros _ (tok' & [=] & _)).
Qed.

(** X5.  A create request is answered 200 only after a creation that
    succeeded: the reference was valid, the last call is the one to the
    delegate, with the flag telling whether the reference is local, the
    delegate fulfilled, the answer carries what it returned and the world is
    the one it left. *)
Theorem post_images_ok_only_after_creation (req : Request) (w : Σ)
  (res : Response) (env : Env Σ) :
  run (post_images MISSING_AUTH req) w = (Fulfilled res, env) ->
  status res = 200 ->
  exists tok record w1 created,
    headers req !! "authorization" = Some tok
    /\ isValidImage (get (body req) "imgUrl") = true
    /\ last (calls env)
       = Some (CallCreateImage record
                 (isLocalFile (get (body req) "imgUrl")) tok)
    /\ createImage record (isLocalFile (get (body req) "imgUrl")) tok w1
       = (Fulfilled created, world env)
    /\ sent res = Json created.
Proof.
  post_cases req w; intros [= <- <-] Hstatus; cbn in Hstatus;
    try discriminate; do 4 eexists;
    (split; [reflexivity |]); (split; [reflexivity |]);
    (split; [reflexivity |]); (split; [eassumption | reflexivity]).
Qed.

(** X6.  When the resolver rejects, whatever the error, the request stops
    there: the delegate is not called, the answer is 400 "image file not
    found" or 500 "image processing failed", and the world is the one the
    resolver left. *)
Theorem post_images_resolver_rejection_stops (req : Request) (w w1 : Σ)
  (authorization : string) (e : Error) :
  headers req !! "authorization" = Some authorization ->
  authorization <> "" ->
  isValidImage (get (body req) "imgUrl") = true ->
  isLocalFile (get (body req) "imgUrl") = true ->
  handleLocalFile (get (body req) "imgUrl") authorization w = (Rejected e, w1) ->
  let (res, env) := run (post_images MISSING_AUTH req) w in
  calls env = [CallIsValidImage (get (body req) "imgUrl");
               CallIsLocalFile (get (body req) "imgUrl");
               CallHandleLocalFile (get (body req) "imgUrl") authorization]
  /\ invocations is_createImage (calls env) = 0%nat
  /\ world env = w1
  /\ (res = Fulfilled (send 400 (Text "image file not found"))
      \/ res = Fulfilled (send 500 (Text "image processing failed"))).
Proof.
  intros Hauth Hne Hvalid Hlocal Hresolve. step_handler. rewrite Hauth.
  apply truthy_string_nonempty in Hne. rewrite Hne. cbn.
  rewrite Hvalid. cbn. rewrite Hlocal. cbn. rewrite Hresolve. cbn.
  destruct (String.eqb (message e) IMAGE_FILE_NOT_FOUND); cbn;
    repeat split; auto.
Qed.

(** X7.  The record handed to the delegate is the request body with its
    [imgUrl] set: every other field reads as in the body, an [imgUrl] field
    is always present, and the flag beside it says whether the body's
    reference is local. *)
Theorem post_images_record_keeps_fields (req : Request) (w : Σ) :
  Forall
    (fun c =>
       match c with
       | CallCreateImage record flag _ =>
           flag = isLocalFile (get (body req) "imgUrl")
           /\ (forall k, k <> "imgUrl" -> record !! k = body req !! k)
           /\ is_Some (record !! "imgUrl")
       | _ => True
       end)
    (calls (snd (run (post_images MISSING_AUTH req) w))).
Proof.
  post_cases req w;
    repeat (constructor;
            [ first
                [ exact I
                | split; [reflexivity |]; unfold spread_with; split;
                  [ intros k Hk; apply lookup_insert_ne; congruence
                  | rewrite lookup_insert_eq; eauto ] ]
            | ]);
    constructor.
Qed.

(** X8.  The create handler reads nothing of a request but its
    [authorization] header and its body: two requests that agree on these
    run alike, whatever their other headers, query and route parameters. *)
Theorem post_images_reads_header_and_body (req1 req2 : Request) (w : Σ) :
  headers req1 !! "authorization" = headers req2 !! "authorization" ->
  body req1 = body req2 ->
  run (post_images MISSING_AUTH req1) w
  = run (post_images MISSING_AUTH req2) w.
Proof.
  intros Hheader Hbody. unfold run, post_images.
  now rewrite Hheader, Hbody.
Qed.

(** X9.  An answer 500, or an answer 400 with the text "image file not
    found", always stems from a rejection by the resolver or by the delegate: the
    status is 500 when the message of that rejection is not the
    file-not-found text, and 400 when it is. *)
Theorem post_images_failure_stems_from_rejection (req : Request) (w : Σ)
  (res : Response) (env : Env Σ) :
  run (post_images MISSING_AUTH req) w = (Fulfilled res, env) ->
  status res = 500
  \/ (status res = 400 /\ sent res = Text "image file not found") ->
  exists tok e,
    headers req !! "authorization" = Some tok
    /\ ((exists w1,
           handleLocalFile (get (body req) "imgUrl") tok w = (Rejected e, w1))
        \/ (exists record w1 w2,
              createImage record (isLocalFile (get (body req) "imgUrl")) tok w1
              = (Rejected e, w2)))
    /\ (status res = 500 <-> message e <> IMAGE_FILE_NOT_FOUND)
    /\ (status res = 400 <-> message e = IMAGE_FILE_NOT_FOUND).
Proof.
  post_cases req w; intros [= <- <-] [Hstatus | [Hstatus Hsent]];
    cbn in *; try discriminate;
    match goal with
    | H : String.eqb _ _ = true |- _ => apply String.eqb_eq in H
    | H : String.eqb _ _ = false |- _ => apply String.eqb_neq in H
    end;
    exists (String c tok), e; (split; [reflexivity |]);
    (split; [eauto 6 |]);
    split; split; intros H';
    first [discriminate H' | reflexivity | assumption | congruence].
Qed.

End CreateProtocol.

(** ** Labels of a list request *)

Lemma length_split (sep : ascii) (s : string) :
  length (split sep s) = S (occurrences sep s).
Proof.
  unfold occurrences. induction s as [| c rest IH]; cbn; [reflexivity |].
  destruct (Ascii.eqb c sep) eqn:Hc.
  - apply Ascii.eqb_eq in Hc. subst c. cbn.
    destruct (ascii_dec sep sep); [now rewrite IH | congruence].
  - destruct (split sep rest) as [| piece pieces] eqn:Hsplit.
    + now destruct (split_nonempty sep rest).
    + destruct (ascii_dec c sep) as [-> | _].
      * now rewrite Ascii.eqb_refl in Hc.
      * exact IH.
Qed.

Lemma split_pieces_no_sep (sep : ascii) (s : string) :
  Forall (fun piece => occurrences sep piece = 0%nat) (split sep s).
Proof.
  apply List.Forall_forall. intros piece Hin. unfold occurrences.
  apply count_occ_not_In. now apply (split_pieces_free sep s).
Qed.

(** X12.  Splitting is compositional at a separator: the pieces of
    [a ++ sep ++ b] are the pieces of [a] followed by the pieces of [b].  So
    a leading, a trailing or a doubled comma in the [objects] parameter
    yields an empty label. *)
Theorem split_app_sep (sep : ascii) (a b : string) :
  split sep (a ++ String sep b) = (split sep a ++ split sep b)%list.
Proof.
  induction a as [| c a IH]; simpl.
  - now rewrite Ascii.eqb_refl.
  - destruct (Ascii.eqb c sep); [now rewrite IH |].
    rewrite IH.
    destruct (split sep a) as [| piece pieces] eqn:Hsplit;
      [now destruct (split_nonempty sep a) | reflexivity].
Qed.

Lemma find_nil (q : ImageMetadata.Filter) (db : ImageMetadata.Collection) :
  (forall id f, db !! id = Some f -> ImageMetadata.matches q (id, f) = false) ->
  ImageMetadata.find q db = [].
Proof.
  intros Hnone.
  destruct (ImageMetadata.find q db) as [| [id f] ds] eqn:Hfind;
    [reflexivity |].
  assert (Hin : (id, f) ∈ ImageMetadata.find q db)
    by (rewrite Hfind; apply list_elem_of_In; now left).
  apply elem_of_find in Hin. destruct Hin as [Hdb Hmatch].
  rewrite (Hnone id f Hdb) in Hmatch. discriminate.
Qed.

Section ReadProtocol.

Variable validateImageGetParams : Middleware.

(** X10.  The list handler reads nothing of a request but its [objects]
    query parameter: two requests that agree on it run alike, whatever
    their other query parameters, headers and body. *)
Theorem get_images_handler_reads_objects (req1 req2 : Request)
  (db : ImageMetadata.Collection) :
  query req1 !! "objects" = query req2 !! "objects" ->
  run (get_images_handler req1) db = run (get_images_handler req2) db.
Proof.
  intros Hq. unfold run, get_images_handler. now rewrite Hq.
Qed.

(** X11.  For a non-empty [objects] string the list route issues a single
    query, for labels that, joined by commas, give the string back: one more
    label than the string has commas, none containing a comma, nothing
    trimmed or dropped. *)
Theorem get_images_labels_of_query (req : Request) (s : string)
  (db : ImageMetadata.Collection) :
  query req !! "objects" = Some (QString s) ->
  s <> "" ->
  validateImageGetParams req = None ->
  exists labels,
    calls (snd (run (get_images validateImageGetParams req) db))
    = [CallFind (ImageMetadata.ObjectsIn labels)]
    /\ String.concat "," labels = s
    /\ length labels = S (occurrences "," s)
    /\ Forall (fun label => occurrences "," label = 0%nat) labels.
Proof.
  intros Hq Hs Hpass. exists (split "," s).
  split; [| split; [apply concat_split | split;
                    [apply length_split | apply split_pieces_no_sep]]].
  step_reader. rewrite Hpass, Hq. cbn.
  apply truthy_string_nonempty in Hs. now rewrite Hs.
Qed.

(** X13.  A list request whose labels match no stored record is still
    answered 200, with an empty list of documents; the collection is left as
    it was. *)
Theorem get_images_no_match (req : Request) (s : string)
  (db : ImageMetadata.Collection) :
  query req !! "objects" = Some (QString s) ->
  s <> "" ->
  validateImageGetParams req = None ->
  (forall id f label,
     db !! id = Some f -> label ∈ split "," s ->
     label ∉ ImageMetadata.objects f) ->
  run (get_images validateImageGetParams req) db
  = (Fulfilled (send 200 (Documents [])),
     {| world := db;
        calls := [CallFind (ImageMetadata.ObjectsIn (split "," s))] |}).
Proof.
  intros Hq Hs Hpass Hnone. step_reader. rewrite Hpass, Hq. cbn.
  apply truthy_string_nonempty in Hs. rewrite Hs. cbn.
  rewrite find_nil; [reflexivity |].
  intros id f Hdb. cbn.
  destruct (ImageMetadata.intersects (split "," s) f) eqn:Hi; [| reflexivity].
  apply intersects_spec in Hi. destruct Hi as (label & Hl & Ho).
  now destruct (Hnone id f label Hdb Hl).
Qed.

End ReadProtocol.

(** ** The protocol at concrete requests *)

Lemma find_nil_inv (q : ImageMetadata.Filter) (db : ImageMetadata.Collection)
  (id : string) (f : ImageMetadata.Fields) :
  ImageMetadata.find q db = [] ->
  db !! id = Some f ->
  ImageMetadata.matches q (id, f) = false.
Proof.
  intros Hfind Hdb.
  destruct (ImageMetadata.matches q (id, f)) eqn:Hmatch; [| reflexivity].
  assert (Hin : (id, f) ∈ ImageMetadata.find q db)
    by (apply elem_of_find; now split).
  rewrite Hfind in Hin. now apply elem_of_nil in Hin.
Qed.

Lemma post_images_ok_only_after_creation_witness :
  let req := Doubles.post (Some "token") Doubles.remote_body in
  let saved := <["isUploadedFile" := JsBool false]> Doubles.remote_body in
  let res := send 200 (Json saved) in
  let env := snd (run (Doubles.create req) Doubles.empty_world) in
  exists tok record w1 created,
    headers req !! "authorization" = Some tok
    /\ Doubles.valid_image (get (body req) "imgUrl") = true
    /\ last (calls env)
       = Some (CallCreateImage record
                 (Doubles.local_file (get (body req) "imgUrl")) tok)
    /\ Doubles.persist record (Doubles.local_file (get (body req) "imgUrl"))
         tok w1
       = (Fulfilled created, world env)
    /\ sent res = Json created.
Proof.
  apply (@post_images_ok_only_after_creation _ Doubles.working_service
           Doubles.lib Doubles.missing_auth
           (Doubles.post (Some "token") Doubles.remote_body)
           Doubles.empty_world);
    [vm_compute; reflexivity | reflexivity].
Defined.

Lemma post_images_resolver_rejection_stops_witness :
  let req := Doubles.post (Some "token") Doubles.local_body in
  let imgUrl := get (body req) "imgUrl" in
  let (res, env) := run (Outage.create req) Doubles.world_with_cat in
  calls env = [CallIsValidImage imgUrl; CallIsLocalFile imgUrl;
               CallHandleLocalFile imgUrl "token"]
  /\ invocations is_createImage (calls env) = 0%nat
  /\ world env = Doubles.world_with_cat
  /\ (res = Fulfilled (send 400 (Text "image file not found"))
      \/ res = Fulfilled (send 500 (Text "image processing failed"))).
Proof.
  apply (@post_images_resolver_rejection_stops _ Outage.service Doubles.lib
           Doubles.missing_auth
           (Doubles.post (Some "token") Doubles.local_body)
           Doubles.world_with_cat Doubles.world_with_cat "token"
           (mkError "storage offline"));
    [reflexivity | discriminate | reflexivity | reflexivity | reflexivity].
Defined.

Lemma post_images_reads_header_and_body_witness :
  run (Doubles.create (Doubles.post (Some "token") Doubles.remote_body))
    Doubles.empty_world
  = run (Doubles.create
           {| headers :=
                {[ "authorization" := "token"; "x-request-id" := "42" ]};
              query := {[ "objects" := QString "cat" ]};
              params := {[ "id" := "a1" ]};
              body := Doubles.remote_body |})
      Doubles.empty_world.
Proof.
  apply (@post_images_reads_header_and_body _ Doubles.working_service
           Doubles.lib Doubles.missing_auth);
    [vm_compute; reflexivity | reflexivity].
Defined.

Lemma post_images_failure_stems_from_rejection_witness :
  let req := Doubles.post (Some "token") Doubles.remote_body in
  let res := send 500 (Text "image processing failed") in
  exists tok e,
    headers req !! "authorization" = Some tok
    /\ ((exists w1,
           Doubles.resolve (get (body req) "imgUrl") tok Doubles.empty_world
           = (Rejected e, w1))
        \/ (exists record w1 w2,
              Doubles.refuse "detector unavailable" record
                (Doubles.local_file (get (body req) "imgUrl")) tok w1
              = (Rejected e, w2)))
    /\ (status res = 500 <-> message e <> IMAGE_FILE_NOT_FOUND)
    /\ (status res = 400 <-> message e = IMAGE_FILE_NOT_FOUND).
Proof.
  apply (@post_images_failure_stems_from_rejection _
           (Doubles.failing_service "detector unavailable") Doubles.lib
           Doubles.missing_auth
           (Doubles.post (Some "token") Doubles.remote_body)
           Doubles.empty_world
           (send 500 (Text "image processing failed"))
           (snd (run (Doubles.create_refusing "detector unavailable"
                        (Doubles.post (Some "token") Doubles.remote_body))
                   Doubles.empty_world)));
    [vm_compute; reflexivity | left; reflexivity].
Defined.

Lemma get_images_handler_reads_objects_witness :
  run (get_images_handler (Doubles.list_request (Some (QString "cat"))))
    Doubles.db
  = run (get_images_handler
           {| headers := {[ "accept" := "application/json" ]};
              query := {[ "objects" := QString "cat"; "page" := QString "2" ]};
              params := ∅;
              body := {[ "imgUrl" := JsString "ignored.png" ]} |})
      Doubles.db.
Proof.
  apply get_images_handler_reads_objects. vm_compute. reflexivity.
Defined.

Lemma get_images_labels_of_query_witness :
  exists labels,
    calls (snd (run (get_images Doubles.pass
                       (Doubles.list_request (Some (QString "cat,,dog "))))
                  Doubles.db))
    = [CallFind (ImageMetadata.ObjectsIn labels)]
    /\ String.concat "," labels = "cat,,dog "
    /\ length labels = S (occurrences "," "cat,,dog ")
    /\ Forall (fun label => occurrences "," label = 0%nat) labels.
Proof.
  apply (get_images_labels_of_query Doubles.pass
           (Doubles.list_request (Some (QString "cat,,dog ")))
           "cat,,dog " Doubles.db);
    [reflexivity | discriminate | reflexivity].
Defined.

Lemma get_images_no_match_witness :
  run (get_images Doubles.pass
         (Doubles.list_request (Some (QString "bird,fish"))))
    Doubles.db
  = (Fulfilled (send 200 (Documents [])),
     {| world := Doubles.db;
        calls :=
          [CallFind (ImageMetadata.ObjectsIn (split "," "bird,fish"))] |}).
Proof.
  apply (get_images_no_match Doubles.pass
           (Doubles.list_request (Some (QString "bird,fish")))
           "bird,fish" Doubles.db);
    [reflexivity | discriminate | reflexivity |].
  intros id f label Hdb Hlabel Hobject.
  assert (Hnone :
            ImageMetadata.find
              (ImageMetadata.ObjectsIn (split "," "bird,fish")) Doubles.db
            = [])
    by (vm_compute; reflexivity).
  pose proof (find_nil_inv _ _ id f Hnone Hdb) as Hmatch.
  change (ImageMetadata.intersects (split "," "bird,fish") f = false)
    in Hmatch.
  assert (Htrue : ImageMetadata.intersects (split "," "bird,fish") f = true)
    by (apply intersects_spec; eauto).
  rewrite Htrue in Hmatch. discriminate.
Defined.

Example split_edge_commas :
  split "," ",cat,,dog," = [""; "cat"; ""; "dog"; ""].
Proof. reflexivity. Qed.

Example run_outage :
  fst (run (Outage.create (Doubles.post (Some "token") Doubles.local_body))
         Doubles.world_with_cat)
  = Fulfilled (send 500 (Text "image processing failed")).
Proof. vm_compute. reflexivity. Qed.


Lemma post_images_status_codes_witness :
  let req := Doubles.post (Some "token") Doubles.remote_body in
  let res :=
    send 200 (Json (<["isUploadedFile" := JsBool false]> Doubles.remote_body)) in
  let env := snd (run (Doubles.create req) Doubles.empty_world) in
  (status res = 200 \/ status res = 400 \/ status res = 401
   \/ status res = 500)
  /\ (status res = 401
      <-> ~ exists tok,
            headers req !! "authorization" = Some tok /\ tok <> "")
  /\ (calls env = [] <-> status res = 401).
Proof.
  apply (@post_images_status_codes _ Doubles.working_service Doubles.lib
           Doubles.missing_auth
           (Doubles.post (Some "token") Doubles.remote_body)
           Doubles.empty_world).
  vm_compute. reflexivity.
Defined.

Example run_empty_header :
  run (Doubles.create (Doubles.post (Some "") Doubles.remote_body))
    Doubles.empty_world
  = (Fulfilled (send 401 (Text Doubles.missing_auth)),
     {| world := Doubles.empty_world; calls := [] |}).
Proof. vm_compute. reflexivity. Qed.
